(** * MTG card scanner front end (src/src/App.jsx): card library and scan loop

    Shallow embedding of the React component [App]:
    - the [cardLibrary] state and its three updaters (the functional
      update inside [captureFrame], [updateQuantity], [removeCard]);
    - [exportToCSV]'s string construction;
    - the scan loop: the [setInterval] tick calling [captureFrame], the
      [isRequestInFlight] gate, the fetch settlement and the timers armed
      with [setTimeout].

    JavaScript strings are [string]; [===] on strings is [String.eqb];
    JS numbers holding quantities and deltas are [Z]; [Date.now()] is a
    [nat] (milliseconds since the epoch). *)

From Stdlib Require Import String Ascii List Bool ZArith Lia.
From Stdlib Require Import Decimal DecimalString.
Import ListNotations.
Open Scope Z_scope.
Open Scope string_scope.

(** ** Number rendering, as template literals render integers *)

Definition string_of_nat (n : nat) : string :=
  NilZero.string_of_uint (Nat.to_uint n).

Definition string_of_Z (z : Z) : string :=
  NilZero.string_of_int (Z.to_int z).

(** ** The card library *)

(** One row of [cardLibrary]: [{ name, quantity, id }]. *)
Record Card := mkCard { name : string; quantity : Z; id : string }.

Definition Library := list Card.

(** [{ ...card, quantity: q }] *)
Definition with_quantity (card : Card) (q : Z) : Card :=
  mkCard card.(name) q card.(id).

(** The functional update passed to [setCardLibrary] on a match
    (App.jsx 67-81); [now] is the value of [Date.now()]. *)
Definition recordMatch (prevLibrary : Library) (data_name : string) (now : nat)
  : Library :=
  match find (fun card => String.eqb card.(name) data_name) prevLibrary with
  | Some _ =>
      map (fun card =>
             if String.eqb card.(name) data_name
             then with_quantity card (card.(quantity) + 1)
             else card) prevLibrary
  | None =>
      (prevLibrary ++
         [mkCard data_name 1 (data_name ++ "-" ++ string_of_nat now)])%list
  end.

(** [updateQuantity(id, delta)] (App.jsx 104-114). *)
Definition updateQuantity (prevLibrary : Library) (cid : string) (delta : Z)
  : Library :=
  filter (fun card => Z.ltb 0 card.(quantity))
    (map (fun card =>
            if String.eqb card.(id) cid
            then with_quantity card (Z.max 0 (card.(quantity) + delta))
            else card) prevLibrary).

(** [removeCard(id)] (App.jsx 116-118). *)
Definition removeCard (prevLibrary : Library) (cid : string) : Library :=
  filter (fun card => negb (String.eqb card.(id) cid)) prevLibrary.

(** The mutations the component can apply to [cardLibrary]. *)
Inductive LibOp :=
| LRecord (data_name : string) (now : nat)
| LUpdate (cid : string) (delta : Z)
| LRemove (cid : string).

Definition lib_step (l : Library) (op : LibOp) : Library :=
  match op with
  | LRecord n t => recordMatch l n t
  | LUpdate cid d => updateQuantity l cid d
  | LRemove cid => removeCard l cid
  end.

Definition run_lib (l : Library) (ops : list LibOp) : Library :=
  fold_left lib_step ops l.

(** A run of matches only, as [(name, Date.now())] pairs. *)
Definition run_matches (l : Library) (ms : list (string * nat)) : Library :=
  fold_left (fun acc m => recordMatch acc (fst m) (snd m)) ms l.

(** Occurrence count of a name in a list of matched names. *)
Definition count_name (n : string) (ns : list string) : nat :=
  length (filter (String.eqb n) ns).

(** Names in order of first occurrence (the spec's "first-match order"). *)
Definition first_occurrences (ns : list string) : list string :=
  fold_left (fun acc n => if existsb (String.eqb n) acc then acc else (acc ++ [n])%list)
    ns [].

(** Whether a character occurs in a string. *)
Fixpoint has_char (ch : ascii) (s : string) : bool :=
  match s with
  | EmptyString => false
  | String c s' => Ascii.eqb ch c || has_char ch s'
  end.

(** ** CSV export (App.jsx 120-140) *)

Definition newline : ascii := ascii_of_nat 10.
Definition dquote : ascii := ascii_of_nat 34.

(** [Array.prototype.join(sep)] on strings. *)
Definition join (sep : string) (xs : list string) : string :=
  match xs with
  | [] => EmptyString
  | x :: rest => fold_left (fun acc y => acc ++ sep ++ y) rest x
  end.

(** The template literal [`"${s}"`]. *)
Definition quoted (s : string) : string :=
  String dquote (s ++ String dquote EmptyString).

Definition headers : list string := ["Card Name"; "Card ID"; "Quantity"].

(** [csvContent] of [exportToCSV]; the number [card.quantity] is turned
    into a string by [join]. *)
Definition csvContent (cardLibrary : Library) : string :=
  join (String newline EmptyString)
    (join "," headers ::
     map (fun card => join "," [quoted card.(name); quoted card.(id);
                                string_of_Z card.(quantity)]) cardLibrary).

(** [String.prototype.split("\n")]: the lines of a text. *)
Fixpoint lines (s : string) : list string :=
  match s with
  | EmptyString => [EmptyString]
  | String c s' =>
      if Ascii.eqb c newline then EmptyString :: lines s'
      else match lines s' with
           | [] => [String c EmptyString]
           | x :: rest => String c x :: rest
           end
  end.

(** ** The scan loop (App.jsx 6-102)

    The component's state is a [Session]. Each state update is taken as
    committed before the next callback runs, so the closure of
    [captureFrame] reads the current [isRequestInFlight]. Callbacks are
    [Event]s: the interval tick, the settlement of the [fetch] started by
    a tick, the passing of time (which runs the [setTimeout] callbacks that
    fall due), the start/stop button and the two row buttons. *)

(** [setInterval(captureFrame, 2500)] *)
Definition POLL_PERIOD_MS : nat := 2500.
(** [setTimeout(() => setIsRequestInFlight(false), 3000)] *)
Definition COOLDOWN_MS : nat := 3000.
Definition NOTIFICATION_MS : nat := 2000.
Definition FLASH_MS : nat := 500.
Definition DEFAULT_ERROR : string := "An error occurred while processing the image".

(** The callbacks armed with [setTimeout]. *)
Inductive Timer := ClearRequestInFlight | HideNotification | EndFlash.

Record Session := mkSession {
  clock : nat;                   (* Date.now() *)
  isScanning : bool;
  isRequestInFlight : bool;
  outstanding : nat;             (* fetch calls not yet settled *)
  error : option string;
  cardLibrary : Library;
  notification : option string;  (* the visible notification message *)
  flashFrame : bool;
  dings : nat;                   (* dingSound.current.play() calls *)
  timers : list (nat * Timer)    (* pending setTimeout callbacks, with due time *)
}.

Definition init (t0 : nat) : Session :=
  mkSession t0 false false 0 None [] None false 0 [].

Definition set_clock s v := mkSession v s.(isScanning) s.(isRequestInFlight)
  s.(outstanding) s.(error) s.(cardLibrary) s.(notification) s.(flashFrame) s.(dings) s.(timers).
Definition set_isScanning s v := mkSession s.(clock) v s.(isRequestInFlight)
  s.(outstanding) s.(error) s.(cardLibrary) s.(notification) s.(flashFrame) s.(dings) s.(timers).
Definition set_isRequestInFlight s v := mkSession s.(clock) s.(isScanning) v
  s.(outstanding) s.(error) s.(cardLibrary) s.(notification) s.(flashFrame) s.(dings) s.(timers).
Definition set_outstanding s v := mkSession s.(clock) s.(isScanning) s.(isRequestInFlight)
  v s.(error) s.(cardLibrary) s.(notification) s.(flashFrame) s.(dings) s.(timers).
Definition set_error s v := mkSession s.(clock) s.(isScanning) s.(isRequestInFlight)
  s.(outstanding) v s.(cardLibrary) s.(notification) s.(flashFrame) s.(dings) s.(timers).
Definition set_cardLibrary s v := mkSession s.(clock) s.(isScanning) s.(isRequestInFlight)
  s.(outstanding) s.(error) v s.(notification) s.(flashFrame) s.(dings) s.(timers).
Definition set_notification s v := mkSession s.(clock) s.(isScanning) s.(isRequestInFlight)
  s.(outstanding) s.(error) s.(cardLibrary) v s.(flashFrame) s.(dings) s.(timers).
Definition set_flashFrame s v := mkSession s.(clock) s.(isScanning) s.(isRequestInFlight)
  s.(outstanding) s.(error) s.(cardLibrary) s.(notification) v s.(dings) s.(timers).
Definition set_dings s v := mkSession s.(clock) s.(isScanning) s.(isRequestInFlight)
  s.(outstanding) s.(error) s.(cardLibrary) s.(notification) s.(flashFrame) v s.(timers).
Definition set_timers s v := mkSession s.(clock) s.(isScanning) s.(isRequestInFlight)
  s.(outstanding) s.(error) s.(cardLibrary) s.(notification) s.(flashFrame) s.(dings) v.

(** [setTimeout(callback, delay)] *)
Definition setTimeout (s : Session) (delay : nat) (t : Timer) : Session :=
  set_timers s (s.(timers) ++ [((s.(clock) + delay)%nat, t)])%list.

(** What reading the frame yields: no webcam/video element (the early
    [return]s), an exception thrown by the canvas steps, or a JPEG. *)
Inductive Capture := NoVideo | CaptureThrows (message : string) | Captured.

(** What [response.json()] yields: a parse failure, or the body's [name]
    field ([None] when absent). *)
Inductive Body := MalformedJson (message : string) | JsonBody (data_name : option string).

(** How the [fetch] settles: rejected, or a response with its status, the
    text of its body and the parse of its body. *)
Inductive Response :=
| FetchRejected (message : string)
| Reply (status : nat) (text : string) (json : Body).

(** [response.ok] *)
Definition response_ok (status : nat) : bool :=
  Nat.leb 200 status && Nat.leb status 299.

(** [`Server error: ${response.status} - ${errorText}`] *)
Definition server_error (status : nat) (text : string) : string :=
  "Server error: " ++ string_of_nat status ++ " - " ++ text.

(** The [catch] block: [setError(err.message || '...')]. *)
Definition fail (s : Session) (message : string) : Session :=
  set_error s (Some (if String.eqb message "" then DEFAULT_ERROR else message)).

(** [showNotification(message)] *)
Definition showNotification (s : Session) (message : string) : Session :=
  setTimeout (set_notification s (Some message)) NOTIFICATION_MS HideNotification.

(** The [if (data.name)] branch: sound, flash, notification, library. *)
Definition on_match (s : Session) (n : string) : Session :=
  let s1 := set_dings s (S s.(dings)) in
  let s2 := setTimeout (set_flashFrame s1 true) FLASH_MS EndFlash in
  let s3 := showNotification s2 (n ++ " added to library") in
  set_cardLibrary s3 (recordMatch s3.(cardLibrary) n s3.(clock)).

(** The [try]/[catch] body after [await fetch(...)]. *)
Definition settle_body (s : Session) (r : Response) : Session :=
  match r with
  | FetchRejected m => fail s m
  | Reply status text json =>
      if negb (response_ok status) then fail s (server_error status text)
      else match json with
           | MalformedJson m => fail s m
           | JsonBody (Some n) => if String.eqb n "" then s else on_match s n
           | JsonBody None => s
           end
  end.

(** Settlement of the outstanding request, then the [finally] block. *)
Definition settle (s : Session) (r : Response) : Session :=
  match s.(outstanding) with
  | O => s
  | S k => setTimeout (settle_body (set_outstanding s k) r) COOLDOWN_MS ClearRequestInFlight
  end.

(** [captureFrame] up to [await fetch(...)]. *)
Definition captureFrame (s : Session) (c : Capture) : Session :=
  if s.(isRequestInFlight) then s
  else match c with
       | NoVideo => s
       | CaptureThrows m => setTimeout (fail s m) COOLDOWN_MS ClearRequestInFlight
       | Captured => set_outstanding (set_isRequestInFlight s true) (S s.(outstanding))
       end.

(** A timer callback. *)
Definition fire (s : Session) (t : Timer) : Session :=
  match t with
  | ClearRequestInFlight => set_isRequestInFlight s false
  | HideNotification => set_notification s None
  | EndFlash => set_flashFrame s false
  end.

(** [ms] milliseconds pass; the callbacks due by then run. *)
Definition elapse (s : Session) (ms : nat) : Session :=
  let now' := (s.(clock) + ms)%nat in
  let due := filter (fun dt => Nat.leb (fst dt) now') s.(timers) in
  let rest := filter (fun dt => negb (Nat.leb (fst dt) now')) s.(timers) in
  fold_left (fun acc dt => fire acc (snd dt)) due (set_timers (set_clock s now') rest).

Inductive Event :=
| ToggleScanning                       (* onClick={() => setIsScanning(!isScanning)} *)
| Tick (c : Capture)                   (* the interval calls captureFrame *)
| Settle (r : Response)                (* the awaited fetch settles *)
| Elapse (ms : nat)
| UpdateQuantity (cid : string) (delta : Z)
| RemoveCard (cid : string).

Definition step (s : Session) (e : Event) : Session :=
  match e with
  | ToggleScanning => set_isScanning s (negb s.(isScanning))
  | Tick c => if s.(isScanning) then captureFrame s c else s
  | Settle r => settle s r
  | Elapse ms => elapse s ms
  | UpdateQuantity cid d => set_cardLibrary s (updateQuantity s.(cardLibrary) cid d)
  | RemoveCard cid => set_cardLibrary s (removeCard s.(cardLibrary) cid)
  end.

Definition run (s : Session) (es : list Event) : Session := fold_left step es s.

Definition is_clear (dt : nat * Timer) : bool :=
  match snd dt with ClearRequestInFlight => true | _ => false end.

(** The pending [setIsRequestInFlight(false)] callbacks. *)
Definition gate_timers (s : Session) : list (nat * Timer) := filter is_clear s.(timers).

Definition no_capture_throw (e : Event) : bool :=
  match e with Tick (CaptureThrows _) => false | _ => true end.

(** Answers that end in the [catch] block: a rejected fetch, a non-2xx
    status, or a body that does not parse. *)
Definition response_fails (r : Response) : bool :=
  match r with
  | FetchRejected _ => true
  | Reply status _ json =>
      negb (response_ok status) ||
      match json with MalformedJson _ => true | JsonBody _ => false end
  end.

(** An event of [s] that runs [setError(...)]: a capture that throws while
    a tick reaches [captureFrame] with the gate clear, or the settlement of
    an outstanding request whose answer fails. *)
Definition failure_event (s : Session) (e : Event) : bool :=
  match e with
  | Tick (CaptureThrows _) => s.(isScanning) && negb s.(isRequestInFlight)
  | Settle r => negb (Nat.eqb s.(outstanding) 0) && response_fails r
  | _ => false
  end.

(** No event of the run from [s] is a failure event. *)
Fixpoint no_failure (s : Session) (es : list Event) : bool :=
  match es with
  | [] => true
  | e :: es' => negb (failure_event s e) && no_failure (step s e) es'
  end.

(** The gate invariant: idle with no pending clear, a request in flight
    with no pending clear, or cooling down with exactly one pending clear. *)
Definition gate_inv (s : Session) : Prop :=
  match s.(isRequestInFlight), s.(outstanding) with
  | false, O => gate_timers s = []
  | true, S O => gate_timers s = []
  | true, O => exists d, gate_timers s = [(d, ClearRequestInFlight)]
  | _, _ => False
  end.

(** The gate is held, cooling down until [D]. *)
Definition held (D : nat) (s : Session) : Prop :=
  s.(isRequestInFlight) = true /\ s.(outstanding) = O /\
  gate_timers s = [(D, ClearRequestInFlight)].

(** Sum of the quantities of the rows (the number of cards held). *)
Definition total_quantity (l : Library) : Z :=
  fold_right (fun card acc => card.(quantity) + acc) 0 l.

(** [s.split(sep)[0]]: the text before the first [sep]. *)
Fixpoint split_first (sep : ascii) (s : string) : string :=
  match s with
  | EmptyString => EmptyString
  | String c s' => if Ascii.eqb c sep then EmptyString else String c (split_first sep s')
  end.

(** The download name of [exportToCSV] (App.jsx 135), from
    [new Date().toISOString()]. *)
Definition export_filename (iso : string) : string :=
  "mtg-library-" ++ split_first "T" iso ++ ".csv".

Definition is_toggle (e : Event) : bool :=
  match e with ToggleScanning => true | _ => false end.

(** The two row buttons (decrease/increase and remove). *)
Definition is_row_action (e : Event) : bool :=
  match e with UpdateQuantity _ _ | RemoveCard _ => true | _ => false end.

(** Every pending timer falls due within the cooldown. *)
Definition timers_bounded (s : Session) : Prop :=
  Forall (fun dt => (fst dt <= s.(clock) + COOLDOWN_MS)%nat) s.(timers).

Example recordMatch_twice :
  run_matches [] [("Lightning Bolt", 10%nat); ("Lightning Bolt", 20%nat)]
  = [mkCard "Lightning Bolt" 2 "Lightning Bolt-10"].
Proof. reflexivity. Qed.

Example shock_net_zero :
  updateQuantity (recordMatch [] "Shock" 7) "Shock-7" (-1) = [].
Proof. reflexivity. Qed.

(** ** Facts about the rendered ids *)

Lemma has_char_append ch a b :
  has_char ch (a ++ b) = has_char ch a || has_char ch b.
Proof.
  induction a as [|c a IH]; simpl; [reflexivity|].
  rewrite IH, orb_assoc; reflexivity.
Qed.

Lemma string_of_nat_no_dash t : has_char "-" (string_of_nat t) = false.
Proof.
  unfold string_of_nat, NilZero.string_of_uint.
  destruct (Nat.to_uint t) as [|u|u|u|u|u|u|u|u|u|u]; [reflexivity| | | | | | | | | |];
    simpl; induction u; simpl; auto.
Qed.

(** The separator of [`${name}-${Date.now()}`] is the last dash of the id,
    because the rendered timestamp has none: the id determines the name. *)
Lemma dash_suffix_inj a b s1 s2 :
  has_char "-" s1 = false -> has_char "-" s2 = false ->
  a ++ String "-" s1 = b ++ String "-" s2 -> a = b /\ s1 = s2.
Proof.
  revert b. induction a as [|c a IH]; intros [|d b] H1 H2 Heq; simpl in Heq.
  - injection Heq as ->. auto.
  - injection Heq as <- Hs. subst s1. rewrite has_char_append in H1.
    simpl in H1. rewrite orb_true_r in H1. discriminate.
  - injection Heq as -> Hs. subst s2. rewrite has_char_append in H2.
    simpl in H2. rewrite orb_true_r in H2. discriminate.
  - injection Heq as -> Hs. destruct (IH b H1 H2 Hs) as [-> ->]. auto.
Qed.

Lemma card_id_inj n1 n2 t1 t2 :
  n1 ++ "-" ++ string_of_nat t1 = n2 ++ "-" ++ string_of_nat t2 -> n1 = n2.
Proof.
  intros H. apply (dash_suffix_inj n1 n2 (string_of_nat t1) (string_of_nat t2));
    auto using string_of_nat_no_dash.
Qed.

(** ** Library invariant: one row per name, positive quantities, ids
    rendered from the row's name and a timestamp *)

Definition lib_inv (l : Library) : Prop :=
  NoDup (map name l) /\
  Forall (fun card => 0 < card.(quantity) /\
            exists t, card.(id) = card.(name) ++ "-" ++ string_of_nat t) l.

Lemma NoDup_map_filter {A B} (f : A -> B) p (l : list A) :
  NoDup (map f l) -> NoDup (map f (filter p l)).
Proof.
  induction l as [|x l IH]; simpl; intros H; [constructor|].
  inversion H as [|? ? Hx Hl]; subst.
  destruct (p x); simpl; auto.
  constructor; auto. intros Hin. apply Hx.
  apply in_map_iff in Hin as (y & Hy & Hiny). apply filter_In in Hiny as [Hiny _].
  rewrite <- Hy. apply in_map; assumption.
Qed.

Lemma NoDup_map_in_inj {A B} (f : A -> B) (l : list A) x y :
  NoDup (map f l) -> In x l -> In y l -> f x = f y -> x = y.
Proof.
  induction l as [|z l IH]; simpl; [tauto|].
  intros Hnd Hx Hy Hf. inversion Hnd as [|? ? Hz Hl]; subst.
  destruct Hx as [<-|Hx], Hy as [<-|Hy]; auto.
  - exfalso. apply Hz. rewrite Hf. apply in_map; assumption.
  - exfalso. apply Hz. rewrite <- Hf. apply in_map; assumption.
Qed.

Lemma find_name_none l n :
  find (fun card => String.eqb card.(name) n) l = None -> ~ In n (map name l).
Proof.
  intros Hf Hin. apply in_map_iff in Hin as (c & Hc & Hin).
  pose proof (find_none _ _ Hf c Hin) as H. simpl in H.
  rewrite Hc, String.eqb_refl in H. discriminate.
Qed.

Lemma find_name_some l n c :
  find (fun card => String.eqb card.(name) n) l = Some c -> In n (map name l).
Proof.
  intros Hf. apply find_some in Hf as [Hin Hc].
  apply String.eqb_eq in Hc. rewrite <- Hc. apply in_map; assumption.
Qed.

Lemma map_name_bump l n :
  map name (map (fun card => if String.eqb card.(name) n
                             then with_quantity card (card.(quantity) + 1)
                             else card) l) = map name l.
Proof.
  induction l as [|c l IH]; simpl; [reflexivity|].
  rewrite IH. destruct (String.eqb (name c) n); reflexivity.
Qed.

Lemma recordMatch_inv l n t : lib_inv l -> lib_inv (recordMatch l n t).
Proof.
  intros [Hnd Hall]. unfold recordMatch.
  destruct (find _ l) as [c0|] eqn:Hf.
  - split; [rewrite map_name_bump; assumption|].
    apply Forall_map. eapply Forall_impl; [|exact Hall].
    intros c [Hq Ht]. destruct (String.eqb (name c) n); simpl; [|auto].
    split; [lia|exact Ht].
  - pose proof (find_name_none _ _ Hf) as Hn. split.
    + rewrite map_app. simpl. apply NoDup_app; auto.
      * repeat constructor. simpl; tauto.
      * intros a Ha [<-|[]]. contradiction.
    + apply Forall_app. split; [assumption|].
      constructor; [|constructor]. simpl. split; [lia|]. exists t. reflexivity.
Qed.

Lemma updateQuantity_inv l cid d : lib_inv l -> lib_inv (updateQuantity l cid d).
Proof.
  intros [Hnd Hall]. unfold updateQuantity. split.
  - apply NoDup_map_filter.
    replace (map name (map _ l)) with (map name l); [assumption|].
    rewrite map_map. apply map_ext. intros c.
    destruct (String.eqb (id c) cid); reflexivity.
  - apply Forall_forall. intros c Hc. apply filter_In in Hc as [Hc Hpos].
    apply Z.ltb_lt in Hpos. split; [assumption|].
    apply in_map_iff in Hc as (c0 & <- & Hc0).
    rewrite Forall_forall in Hall. destruct (Hall c0 Hc0) as [_ Ht].
    destruct (String.eqb (id c0) cid); exact Ht.
Qed.

Lemma removeCard_inv l cid : lib_inv l -> lib_inv (removeCard l cid).
Proof.
  intros [Hnd Hall]. split.
  - apply NoDup_map_filter; assumption.
  - apply Forall_forall. intros c Hc. apply filter_In in Hc as [Hc _].
    rewrite Forall_forall in Hall. auto.
Qed.

Lemma run_lib_inv l ops : lib_inv l -> lib_inv (run_lib l ops).
Proof.
  revert l. induction ops as [|op ops IH]; intros l Hl; simpl; [assumption|].
  apply IH. destruct op; simpl;
    auto using recordMatch_inv, updateQuantity_inv, removeCard_inv.
Qed.

Lemma lib_inv_nil : lib_inv [].
Proof. split; constructor. Qed.

Lemma lib_inv_ids_NoDup l : lib_inv l -> NoDup (map id l).
Proof.
  intros [Hnd Hall]. induction l as [|c l IH]; simpl; [constructor|].
  inversion Hnd as [|? ? Hc Hl]; subst. inversion Hall as [|? ? [_ [t Ht]] Hall']; subst.
  constructor; auto. intros Hin. apply in_map_iff in Hin as (c' & Hid & Hin).
  rewrite Forall_forall in Hall'. destruct (Hall' c' Hin) as [_ [t' Ht']].
  apply Hc. rewrite Ht, Ht' in Hid. apply card_id_inj in Hid.
  rewrite <- Hid. apply in_map; assumption.
Qed.

(** ** Runs of matches *)

Lemma count_name_snoc x ns n :
  count_name x (ns ++ [n]) = (count_name x ns + if String.eqb x n then 1 else 0)%nat.
Proof.
  unfold count_name. rewrite filter_app, length_app. simpl.
  destruct (String.eqb x n); reflexivity.
Qed.

Lemma count_name_not_in x ns : ~ In x ns -> count_name x ns = 0%nat.
Proof.
  unfold count_name. intros Hx.
  destruct (filter (String.eqb x) ns) as [|y ys] eqn:Hf; [reflexivity|].
  exfalso. assert (Hy : In y (filter (String.eqb x) ns)) by (rewrite Hf; left; reflexivity).
  apply filter_In in Hy as [Hy Heq]. apply String.eqb_eq in Heq. subst. contradiction.
Qed.

Lemma run_matches_snoc l ms m :
  run_matches l (ms ++ [m]) = recordMatch (run_matches l ms) (fst m) (snd m).
Proof. unfold run_matches. rewrite fold_left_app. reflexivity. Qed.

Lemma first_occurrences_snoc ns n :
  first_occurrences (ns ++ [n]) =
  (if existsb (String.eqb n) (first_occurrences ns) then first_occurrences ns
   else first_occurrences ns ++ [n])%list.
Proof. unfold first_occurrences. rewrite fold_left_app. reflexivity. Qed.

Lemma find_name_existsb l n :
  find (fun card => String.eqb card.(name) n) l = None <->
  existsb (String.eqb n) (map name l) = false.
Proof.
  induction l as [|c l IH]; simpl; [tauto|].
  rewrite String.eqb_sym. destruct (String.eqb n (name c)); simpl.
  - split; discriminate.
  - exact IH.
Qed.

(** C1: after any sequence of matches [recordMatch(name)] starting from the
    empty library, there is exactly one row per distinct matched name (row
    names are duplicate-free and are exactly the matched names), and each
    row's quantity is the number of matches of its name. *)
Theorem recordMatch_counts (ms : list (string * nat)) :
  NoDup (map name (run_matches [] ms)) /\
  (forall n, In n (map name (run_matches [] ms)) <-> In n (map fst ms)) /\
  (forall card, In card (run_matches [] ms) ->
     card.(quantity) = Z.of_nat (count_name card.(name) (map fst ms))).
Proof.
  induction ms as [|[n t] ms IH] using rev_ind; [simpl; split; [constructor|split; [tauto|intros ? []]]|].
  rewrite run_matches_snoc, map_app. cbn [map fst snd].
  destruct IH as (Hnd & Hin & Hq).
  remember (run_matches [] ms) as L eqn:HL. clear HL.
  unfold recordMatch. destruct (find _ L) as [c0|] eqn:Hf.
  - pose proof (find_name_some _ _ _ Hf) as HnL.
    rewrite map_name_bump. split; [assumption|split].
    + intros x. rewrite in_app_iff, Hin. simpl. split; [tauto|].
      intros [H|[<-|[]]]; [assumption|]. apply Hin; assumption.
    + intros card Hc. apply in_map_iff in Hc as (c & <- & Hc).
      rewrite count_name_snoc. specialize (Hq c Hc).
      destruct (String.eqb (name c) n) eqn:Heq; simpl; rewrite ?Heq; lia.
  - pose proof (find_name_none _ _ Hf) as HnL.
    assert (Hns : ~ In n (map fst ms)) by (rewrite <- Hin; assumption).
    rewrite map_app. simpl. split; [|split].
    + apply NoDup_app; auto.
      * constructor; [simpl; tauto|constructor].
      * intros a Ha [<-|[]]. contradiction.
    + intros x. rewrite !in_app_iff, Hin. reflexivity.
    + intros card Hc. apply in_app_iff in Hc as [Hc|[<-|[]]].
      * rewrite count_name_snoc.
        destruct (String.eqb (name card) n) eqn:Heq.
        -- apply String.eqb_eq in Heq. exfalso. apply HnL.
           rewrite <- Heq. apply in_map; assumption.
        -- rewrite (Hq card Hc). lia.
      * simpl. rewrite count_name_snoc, String.eqb_refl,
          (count_name_not_in _ _ Hns). reflexivity.
Qed.

Lemma find_existsb {A} (f : A -> bool) l : find f l = None <-> existsb f l = false.
Proof.
  induction l as [|x l IH]; simpl; [tauto|].
  destruct (f x); simpl; [split; discriminate|exact IH].
Qed.

Lemma Forall2_map_r {A} (R : A -> A -> Prop) (f : A -> A) l :
  (forall x, In x l -> R x (f x)) -> Forall2 R l (map f l).
Proof.
  induction l as [|x l IH]; simpl; intros H; constructor; auto.
Qed.

(** C10: a match of a name already in the library changes only the
    quantity of that name's row (+1): every row keeps its name, its id
    and its position, and rows of other names are untouched; a match of a
    new name appends one row at the end; hence the row order (the CSV
    order) of a run of matches is the order of first matches. *)
Theorem recordMatch_frame (l : Library) (n : string) (t : nat) :
  (existsb (fun card => String.eqb card.(name) n) l = true ->
   Forall2 (fun c c' => c'.(name) = c.(name) /\ c'.(id) = c.(id) /\
              (c.(name) = n -> c'.(quantity) = c.(quantity) + 1) /\
              (c.(name) <> n -> c' = c))
     l (recordMatch l n t)) /\
  (existsb (fun card => String.eqb card.(name) n) l = false ->
   recordMatch l n t = (l ++ [mkCard n 1 (n ++ "-" ++ string_of_nat t)])%list) /\
  (forall ms, map name (run_matches [] ms) = first_occurrences (map fst ms)).
Proof.
  split; [|split].
  - intros Hex. unfold recordMatch.
    destruct (find _ l) as [c0|] eqn:Hf.
    + apply Forall2_map_r. intros c _.
      destruct (String.eqb (name c) n) eqn:Heq; simpl.
      * apply String.eqb_eq in Heq. repeat split; auto. contradiction.
      * apply String.eqb_neq in Heq. repeat split; auto. contradiction.
    + apply find_existsb in Hf. congruence.
  - intros Hex. unfold recordMatch.
    apply find_existsb in Hex. rewrite Hex. reflexivity.
  - induction ms as [|[m t'] ms IH] using rev_ind; [reflexivity|].
    rewrite run_matches_snoc, map_app. cbn [map fst snd]. rewrite first_occurrences_snoc.
    rewrite <- IH. unfold recordMatch.
    destruct (find _ (run_matches [] ms)) eqn:Hf.
    + rewrite map_name_bump.
      destruct (existsb (String.eqb m) (map name (run_matches [] ms))) eqn:He;
        [reflexivity|].
      apply find_name_existsb in He. congruence.
    + apply find_name_existsb in Hf. rewrite Hf, map_app. reflexivity.
Qed.

(** C9: in every library built by any sequence of matches (with any
    timestamps, equal ones included), quantity updates and removals, the row
    ids are pairwise distinct; a match keeps the ids of all existing rows in
    place (a new row is only appended), and every row left by
    [updateQuantity] carries the name and the id of a row it came from. *)
Theorem card_ids_unique_stable :
  (forall ops, NoDup (map id (run_lib [] ops))) /\
  (forall l n t, exists rest, map id (recordMatch l n t) = (map id l ++ rest)%list) /\
  (forall l cid d c', In c' (updateQuantity l cid d) ->
     exists c, In c l /\ c.(name) = c'.(name) /\ c.(id) = c'.(id)).
Proof.
  split; [|split].
  - intros ops. apply lib_inv_ids_NoDup, run_lib_inv, lib_inv_nil.
  - intros l n t. unfold recordMatch. destruct (find _ l) as [c0|].
    + exists []. rewrite app_nil_r, map_map. apply map_ext. intros c.
      destruct (String.eqb (name c) n); reflexivity.
    + rewrite map_app. eexists. reflexivity.
  - intros l cid d c' Hc. apply filter_In in Hc as [Hc _].
    apply in_map_iff in Hc as (c & <- & Hc). exists c. split; [assumption|].
    destruct (String.eqb (id c) cid); split; reflexivity.
Qed.

(** C2: in any library the component can build, [updateQuantity(id, delta)]
    on the row [card] with that id leaves only positive quantities; when
    [max(0, quantity + delta)] is positive the row stays with exactly that
    quantity, and when it is 0 no row with that id is left. *)
Theorem updateQuantity_spec (ops : list LibOp) (card : Card) (cid : string) (delta : Z) :
  In card (run_lib [] ops) -> card.(id) = cid ->
  (forall c', In c' (updateQuantity (run_lib [] ops) cid delta) -> 0 < c'.(quantity)) /\
  (0 < Z.max 0 (card.(quantity) + delta) ->
     In (with_quantity card (Z.max 0 (card.(quantity) + delta)))
        (updateQuantity (run_lib [] ops) cid delta)) /\
  (Z.max 0 (card.(quantity) + delta) = 0 ->
     forall c', In c' (updateQuantity (run_lib [] ops) cid delta) -> c'.(id) <> cid).
Proof.
  intros Hin Hid. pose proof (run_lib_inv [] ops lib_inv_nil) as Hinv.
  pose proof (lib_inv_ids_NoDup _ Hinv) as Hids.
  remember (run_lib [] ops) as l eqn:Hl. clear Hl.
  unfold updateQuantity. split; [|split].
  - intros c' Hc'. apply filter_In in Hc' as [_ Hpos]. apply Z.ltb_lt; assumption.
  - intros Hpos. apply filter_In. split; [|apply Z.ltb_lt; exact Hpos].
    apply in_map_iff. exists card. split; [|assumption].
    rewrite Hid, String.eqb_refl. reflexivity.
  - intros Hzero c' Hc' Hc'id. apply filter_In in Hc' as [Hc' Hpos].
    apply in_map_iff in Hc' as (c0 & Hc0 & Hin0).
    destruct (String.eqb (id c0) cid) eqn:Heq.
    + apply String.eqb_eq in Heq.
      assert (c0 = card) as -> by
        (apply (NoDup_map_in_inj id l); auto; congruence).
      subst c'. simpl in Hpos. rewrite Hzero in Hpos. discriminate.
    + subst c'. apply String.eqb_neq in Heq. contradiction.
Qed.

(** C7: in any library the component can build, [removeCard(id)] followed
    by [updateQuantity(id, delta)] gives the same library as [removeCard(id)]
    alone, for every delta. *)
Theorem remove_then_update_noop (ops : list LibOp) (cid : string) (delta : Z) :
  updateQuantity (removeCard (run_lib [] ops) cid) cid delta =
  removeCard (run_lib [] ops) cid.
Proof.
  pose proof (removeCard_inv _ cid (run_lib_inv [] ops lib_inv_nil)) as [_ Hall].
  assert (Hgone : forall c, In c (removeCard (run_lib [] ops) cid) -> id c <> cid).
  { intros c Hc. apply filter_In in Hc as [_ Hc]. apply negb_true_iff in Hc.
    apply String.eqb_neq; assumption. }
  remember (removeCard (run_lib [] ops) cid) as l eqn:Hl. clear Hl.
  unfold updateQuantity.
  rewrite map_ext_in with (g := fun c => c).
  - rewrite map_id. apply forallb_filter_id. apply forallb_forall.
    intros c Hc. rewrite Forall_forall in Hall. apply Z.ltb_lt, (Hall c Hc).
  - intros c Hc. pose proof (Hgone c Hc) as Hne. apply String.eqb_neq in Hne.
    rewrite Hne. reflexivity.
Qed.

(** ** CSV text *)

Lemma append_assoc_str (a b c : string) : (a ++ b) ++ c = a ++ (b ++ c).
Proof. induction a as [|x a IH]; simpl; [reflexivity|rewrite IH; reflexivity]. Qed.

Lemma append_nil_str (a : string) : a ++ EmptyString = a.
Proof. induction a as [|x a IH]; simpl; [reflexivity|rewrite IH; reflexivity]. Qed.

Lemma join_cons sep x xs :
  join sep (x :: xs) = x ++ fold_right (fun y acc => sep ++ y ++ acc) EmptyString xs.
Proof.
  unfold join. revert x. induction xs as [|y ys IH]; intros x; simpl.
  - rewrite append_nil_str. reflexivity.
  - rewrite IH, !append_assoc_str. reflexivity.
Qed.

Lemma lines_no_newline a : has_char newline a = false -> lines a = [a].
Proof.
  induction a as [|c a IH]; cbn [lines has_char]; intros H; [reflexivity|].
  apply orb_false_iff in H as [Hc Ha]. rewrite Ascii.eqb_sym, Hc, IH; auto.
Qed.

Lemma lines_app_newline a b :
  has_char newline a = false -> lines (a ++ String newline b) = a :: lines b.
Proof.
  induction a as [|c a IH]; cbn [lines has_char append]; intros H.
  - rewrite Ascii.eqb_refl. reflexivity.
  - apply orb_false_iff in H as [Hc Ha]. rewrite Ascii.eqb_sym, Hc, IH; auto.
Qed.

Lemma lines_joined h rows :
  has_char newline h = false -> Forall (fun r => has_char newline r = false) rows ->
  lines (h ++ fold_right (fun y acc => String newline EmptyString ++ y ++ acc)
                EmptyString rows) = h :: rows.
Proof.
  revert h. induction rows as [|r rows IH]; intros h Hh Hrows; simpl.
  - rewrite append_nil_str. apply lines_no_newline; assumption.
  - inversion Hrows; subst. rewrite lines_app_newline, IH; auto.
Qed.

Lemma digits_no_newline u : has_char newline (NilEmpty.string_of_uint u) = false.
Proof. induction u; simpl; auto. Qed.

Lemma string_of_Z_no_newline z : has_char newline (string_of_Z z) = false.
Proof.
  unfold string_of_Z, NilZero.string_of_int, NilZero.string_of_uint.
  destruct (Z.to_int z) as [u|u]; cbn [has_char];
    [|rewrite orb_false_iff; split; [reflexivity|]];
    destruct u; try reflexivity; apply digits_no_newline.
Qed.

Lemma csv_row_no_newline card :
  has_char newline card.(name) = false -> has_char newline card.(id) = false ->
  has_char newline (join "," [quoted card.(name); quoted card.(id);
                              string_of_Z card.(quantity)]) = false.
Proof.
  intros Hn Hi. simpl. unfold quoted.
  rewrite !has_char_append. simpl. rewrite !has_char_append. simpl.
  rewrite Hn, Hi, string_of_Z_no_newline. reflexivity.
Qed.

(** C5: the exported text is the header line [Card Name,Card ID,Quantity]
    followed by one line per row, in library order, with the name and the
    id in double quotes and the quantity unquoted, joined by newlines (when
    no name or id contains a newline, splitting the text at newlines gives
    back exactly these lines); the two-row example of the spec gives the
    header, then ["Shock","Shock-1",2], then ["Bolt","Bolt-2",1]. *)
Theorem exportToCSV_format :
  (forall l : Library,
     Forall (fun card => has_char newline card.(name) = false /\
                         has_char newline card.(id) = false) l ->
     lines (csvContent l) =
     "Card Name,Card ID,Quantity" ::
       map (fun card => quoted card.(name) ++ "," ++ quoted card.(id) ++ "," ++
                        string_of_Z card.(quantity)) l) /\
  csvContent [mkCard "Shock" 2 "Shock-1"; mkCard "Bolt" 1 "Bolt-2"] =
  "Card Name,Card ID,Quantity" ++
    String newline (quoted "Shock" ++ "," ++ quoted "Shock-1" ++ ",2" ++
    String newline (quoted "Bolt" ++ "," ++ quoted "Bolt-2" ++ ",1")).
Proof.
  split; [|reflexivity].
  intros l Hl. unfold csvContent. rewrite join_cons.
  replace (map (fun card => quoted card.(name) ++ "," ++ quoted card.(id) ++ "," ++
                            string_of_Z card.(quantity)) l)
    with (map (fun card => join "," [quoted card.(name); quoted card.(id);
                                     string_of_Z card.(quantity)]) l).
  - apply lines_joined; [reflexivity|].
    apply Forall_map. eapply Forall_impl; [|exact Hl].
    intros c [Hn Hi]. apply csv_row_no_newline; assumption.
  - apply map_ext. intros c. unfold join, quoted. simpl.
    repeat (rewrite !append_assoc_str; simpl). reflexivity.
Qed.

(** ** Timers *)

Lemma fold_fire_fields (L : list (nat * Timer)) (s0 : Session) :
  let s1 := fold_left (fun acc dt => fire acc (snd dt)) L s0 in
  s1.(clock) = s0.(clock) /\ s1.(isScanning) = s0.(isScanning) /\
  s1.(outstanding) = s0.(outstanding) /\ s1.(error) = s0.(error) /\
  s1.(cardLibrary) = s0.(cardLibrary) /\ s1.(dings) = s0.(dings) /\
  s1.(timers) = s0.(timers) /\
  s1.(isRequestInFlight) = (if existsb is_clear L then false else s0.(isRequestInFlight)).
Proof.
  revert s0. induction L as [|[d t] L IH]; intros s0; [simpl; tauto|].
  simpl. destruct (IH (fire s0 t)) as (H1 & H2 & H3 & H4 & H5 & H6 & H7 & H8).
  rewrite H1, H2, H3, H4, H5, H6, H7, H8.
  destruct t; simpl; repeat split; try reflexivity;
    destruct (existsb _ L); reflexivity.
Qed.

Lemma existsb_filter_swap {A} (p q : A -> bool) (L : list A) :
  existsb q (filter p L) = existsb p (filter q L).
Proof.
  induction L as [|x L IH]; [reflexivity|]. simpl.
  destruct (p x) eqn:Hp, (q x) eqn:Hq; simpl; rewrite ?Hp, ?Hq, ?IH; reflexivity.
Qed.

Lemma elapse_fields (s : Session) (ms : nat) :
  let s1 := elapse s ms in
  s1.(clock) = (s.(clock) + ms)%nat /\ s1.(isScanning) = s.(isScanning) /\
  s1.(outstanding) = s.(outstanding) /\ s1.(error) = s.(error) /\
  s1.(cardLibrary) = s.(cardLibrary) /\ s1.(dings) = s.(dings) /\
  s1.(timers) = filter (fun dt => negb (Nat.leb (fst dt) (s.(clock) + ms))) s.(timers) /\
  s1.(isRequestInFlight) =
    (if existsb (fun dt => Nat.leb (fst dt) (s.(clock) + ms)) (gate_timers s)
     then false else s.(isRequestInFlight)).
Proof.
  unfold elapse. cbv zeta.
  destruct (fold_fire_fields (filter (fun dt => Nat.leb (fst dt) (s.(clock) + ms)) s.(timers))
             (set_timers (set_clock s (s.(clock) + ms))
                (filter (fun dt => negb (Nat.leb (fst dt) (s.(clock) + ms))) s.(timers))))
    as (H1 & H2 & H3 & H4 & H5 & H6 & H7 & H8).
  rewrite H1, H2, H3, H4, H5, H6, H7, H8. simpl. repeat split; try reflexivity.
  unfold gate_timers. rewrite existsb_filter_swap. reflexivity.
Qed.

(** ** Settlement of a scan cycle *)

Lemma settle_unfold s k r :
  s.(outstanding) = S k ->
  settle s r = setTimeout (settle_body (set_outstanding s k) r) COOLDOWN_MS ClearRequestInFlight.
Proof. intros H. unfold settle. rewrite H. reflexivity. Qed.

(** C4: when the outstanding request is answered with a non-2xx status,
    the stored error becomes [Server error: <status> - <body text>] (the
    status and the body text verbatim; e.g. [Server error: 500 - overloaded])
    and the library, the notification and the sound count are unchanged. *)
Theorem server_error_reported (s : Session) (status : nat) (text : string) (json : Body) :
  s.(outstanding) <> 0%nat -> response_ok status = false ->
  let s' := step s (Settle (Reply status text json)) in
  s'.(error) = Some ("Server error: " ++ string_of_nat status ++ " - " ++ text) /\
  s'.(cardLibrary) = s.(cardLibrary) /\
  s'.(notification) = s.(notification) /\ s'.(dings) = s.(dings) /\
  server_error 500 "overloaded" = "Server error: 500 - overloaded".
Proof.
  intros Hout Hok. destruct (outstanding s) as [|k] eqn:Hk; [contradiction|].
  simpl. rewrite (settle_unfold _ _ _ Hk). simpl. rewrite Hok. simpl.
  repeat split; reflexivity.
Qed.

(** C8: when the outstanding request is answered with a 2xx status and a
    well-formed body without a [name] field, the library, the notification,
    the frame flash, the sound count and the stored error are all unchanged. *)
Theorem no_name_no_effect (s : Session) (status : nat) (text : string) :
  s.(outstanding) <> 0%nat -> response_ok status = true ->
  let s' := step s (Settle (Reply status text (JsonBody None))) in
  s'.(cardLibrary) = s.(cardLibrary) /\ s'.(notification) = s.(notification) /\
  s'.(flashFrame) = s.(flashFrame) /\ s'.(dings) = s.(dings) /\
  s'.(error) = s.(error).
Proof.
  intros Hout Hok. destruct (outstanding s) as [|k] eqn:Hk; [contradiction|].
  simpl. rewrite (settle_unfold _ _ _ Hk). simpl. rewrite Hok. simpl.
  repeat split; reflexivity.
Qed.

(** The run used against C6: a server failure, then, after the cooldown,
    a successful match of "Shock". *)
Definition error_then_match : list Event :=
  [ToggleScanning; Tick Captured; Settle (Reply 500 "overloaded" (JsonBody None));
   Elapse 3000; Tick Captured; Settle (Reply 200 "" (JsonBody (Some "Shock")))].

(** C6 (as stated, refuted): it is not the case that a successful cycle
    with a present name clears the stored error: after [error_then_match]
    the library holds the "Shock" row and the server error is still stored. *)
Lemma success_keeps_error_counterexample :
  ~ (forall s status text n,
       s.(outstanding) <> 0%nat -> response_ok status = true -> n <> "" ->
       (step s (Settle (Reply status text (JsonBody (Some n))))).(error) = None).
Proof.
  intros H.
  specialize (H (run (init 0) (removelast error_then_match)) 200%nat "" "Shock").
  assert (Hout : (run (init 0) (removelast error_then_match)).(outstanding) <> 0%nat)
    by (vm_compute; discriminate).
  specialize (H Hout eq_refl ltac:(discriminate)).
  vm_compute in H. discriminate.
Qed.


Lemma settle_body_error s r :
  (settle_body s r).(error) = s.(error) \/ exists m, (settle_body s r).(error) = Some m.
Proof.
  destruct r as [m|st tx [m|[n|]]]; simpl; eauto.
  all: destruct (negb (response_ok st)); simpl; eauto.
  destruct (String.eqb n ""); simpl; auto.
Qed.

Lemma step_error_kept s e : s.(error) <> None -> (step s e).(error) <> None.
Proof.
  intros He. destruct e as [|c|r|ms|cid d|cid]; simpl; try exact He.
  - destruct (isScanning s); [|exact He]. unfold captureFrame.
    destruct (isRequestInFlight s); [exact He|].
    destruct c; simpl; try exact He; discriminate.
  - unfold settle. destruct (outstanding s) as [|k]; [exact He|].
    destruct (settle_body_error (set_outstanding s k) r) as [H|[m H]];
      simpl; rewrite H; [exact He|discriminate].
  - destruct (elapse_fields s ms) as (_ & _ & _ & H & _). rewrite H. exact He.
Qed.

Lemma step_error_no_failure s e :
  failure_event s e = false -> (step s e).(error) = s.(error).
Proof.
  intros Hf. destruct e as [|c|r|ms|cid d|cid]; simpl in Hf |- *; try reflexivity.
  - destruct (isScanning s) eqn:Hs; [|reflexivity]. unfold captureFrame.
    destruct (isRequestInFlight s) eqn:Hi; [reflexivity|].
    destruct c; simpl in Hf; [reflexivity|discriminate|reflexivity].
  - unfold settle. destruct (outstanding s) as [|k]; [reflexivity|].
    simpl in Hf. simpl.
    destruct r as [m|st tx [m|[n|]]]; simpl in Hf |- *; [discriminate| | |];
      destruct (response_ok st); simpl in Hf |- *; try discriminate; try reflexivity.
    destruct (String.eqb n ""); reflexivity.
  - destruct (elapse_fields s ms) as (_ & _ & _ & H & _). exact H.
Qed.

Lemma step_error_failure s e :
  failure_event s e = true -> exists m, (step s e).(error) = Some m.
Proof.
  intros Hf. destruct e as [|c|r|ms|cid d|cid]; simpl in Hf |- *; try discriminate.
  - destruct c as [|m|]; try discriminate.
    destruct (isScanning s); [|discriminate]. unfold captureFrame.
    destruct (isRequestInFlight s); [discriminate|]. simpl. eauto.
  - unfold settle. destruct (outstanding s) as [|k]; [discriminate|].
    simpl in Hf. simpl.
    destruct r as [m|st tx [m|[n|]]]; simpl in Hf |- *; [eauto| | |];
      destruct (response_ok st); simpl in Hf |- *; try discriminate; eauto.
Qed.

Lemma run_error_no_failure s es :
  no_failure s es = true -> (run s es).(error) = s.(error).
Proof.
  revert s. induction es as [|e es IH]; intros s H; simpl in H |- *; [reflexivity|].
  apply andb_prop in H as [He H]. apply negb_true_iff in He.
  rewrite IH by exact H. apply step_error_no_failure, He.
Qed.

(** C6 (amended): a cycle answered with a 2xx status and a name leaves
    the stored error as it was; an event that is not a failure (a tick
    that does not throw, a successful settlement, a timer, a toggle, a row
    edit) leaves the stored message unchanged, and so does any run without
    failures; a failure replaces it by another message, so no event turns
    a stored error back into none; after [error_then_match] the server
    error of the first cycle is still stored. *)
Theorem success_keeps_error (s : Session) (status : nat) (text : string) (n : string) :
  response_ok status = true ->
  (step s (Settle (Reply status text (JsonBody (Some n))))).(error) = s.(error) /\
  (forall e, failure_event s e = false -> (step s e).(error) = s.(error)) /\
  (forall es, no_failure s es = true -> (run s es).(error) = s.(error)) /\
  (forall e, failure_event s e = true -> exists m, (step s e).(error) = Some m) /\
  (forall e, s.(error) <> None -> (step s e).(error) <> None) /\
  (run (init 0) error_then_match).(error) = Some "Server error: 500 - overloaded".
Proof.
  intros Hok. split; [|split; [|split; [|split; [|split]]]].
  - simpl. unfold settle. destruct (outstanding s) as [|k]; [reflexivity|].
    simpl. rewrite Hok. simpl.
    destruct (String.eqb n ""); reflexivity.
  - apply step_error_no_failure.
  - apply run_error_no_failure.
  - apply step_error_failure.
  - apply step_error_kept.
  - vm_compute. reflexivity.
Qed.

Lemma success_keeps_error_witness :
  (run (init 0) (removelast error_then_match)).(error) = Some "Server error: 500 - overloaded" /\
  (run (init 0) (removelast error_then_match)).(outstanding) = 1%nat /\
  response_ok 200 = true /\
  (step (run (init 0) (removelast error_then_match))
     (Settle (Reply 200 "" (JsonBody (Some "Shock"))))).(error) =
    Some "Server error: 500 - overloaded" /\
  no_failure (run (init 0) (removelast error_then_match))
    [Settle (Reply 200 "" (JsonBody (Some "Shock"))); Elapse 3000; Tick Captured;
     Settle (Reply 200 "" (JsonBody None)); UpdateQuantity "Shock-3000" 1;
     ToggleScanning] = true /\
  (run (run (init 0) (removelast error_then_match))
    [Settle (Reply 200 "" (JsonBody (Some "Shock"))); Elapse 3000; Tick Captured;
     Settle (Reply 200 "" (JsonBody None)); UpdateQuantity "Shock-3000" 1;
     ToggleScanning]).(error) = Some "Server error: 500 - overloaded".
Proof.
  assert (He : (run (init 0) (removelast error_then_match)).(error) =
               Some "Server error: 500 - overloaded") by (vm_compute; reflexivity).
  assert (Hn : no_failure (run (init 0) (removelast error_then_match))
    [Settle (Reply 200 "" (JsonBody (Some "Shock"))); Elapse 3000; Tick Captured;
     Settle (Reply 200 "" (JsonBody None)); UpdateQuantity "Shock-3000" 1;
     ToggleScanning] = true) by (vm_compute; reflexivity).
  destruct (success_keeps_error (run (init 0) (removelast error_then_match)) 200 "" "Shock"
              eq_refl) as (H1 & _ & H3 & _).
  split; [exact He|split; [vm_compute; reflexivity|split; [reflexivity|split]]].
  - rewrite H1. exact He.
  - split; [exact Hn|]. rewrite (H3 _ Hn). exact He.
Defined.

Lemma server_error_reported_witness :
  (run (init 0) [ToggleScanning; Tick Captured]).(outstanding) <> 0%nat /\
  response_ok 500 = false /\
  (step (run (init 0) [ToggleScanning; Tick Captured])
     (Settle (Reply 500 "overloaded" (JsonBody None)))).(error) =
  Some ("Server error: " ++ string_of_nat 500 ++ " - " ++ "overloaded").
Proof.
  split; [vm_compute; discriminate|split; [reflexivity|]].
  apply (server_error_reported (run (init 0) [ToggleScanning; Tick Captured]) 500
           "overloaded" (JsonBody None)); [vm_compute; discriminate|reflexivity].
Defined.

Lemma no_name_no_effect_witness :
  (run (init 0) [ToggleScanning; Tick Captured]).(outstanding) <> 0%nat /\
  response_ok 200 = true /\
  (step (run (init 0) [ToggleScanning; Tick Captured])
     (Settle (Reply 200 "{}" (JsonBody None)))).(cardLibrary) = [].
Proof.
  split; [vm_compute; discriminate|split; [reflexivity|]].
  apply (no_name_no_effect (run (init 0) [ToggleScanning; Tick Captured]) 200 "{}");
    [vm_compute; discriminate|reflexivity].
Defined.

(** ** The in-flight gate *)

Lemma filter_comm {A} (p q : A -> bool) (L : list A) :
  filter p (filter q L) = filter q (filter p L).
Proof.
  induction L as [|x L IH]; [reflexivity|]. simpl.
  destruct (p x) eqn:Hp, (q x) eqn:Hq; simpl; rewrite ?Hp, ?Hq, IH; reflexivity.
Qed.

Lemma elapse_gate_timers s ms :
  gate_timers (elapse s ms) =
  filter (fun dt => negb (Nat.leb (fst dt) (s.(clock) + ms))) (gate_timers s).
Proof.
  unfold gate_timers. destruct (elapse_fields s ms) as (_ & _ & _ & _ & _ & _ & H & _).
  rewrite H. apply filter_comm.
Qed.

Lemma setTimeout_gate_timers s d t :
  gate_timers (setTimeout s d t) =
  (gate_timers s ++ (if is_clear (0%nat, t) then [((s.(clock) + d)%nat, t)] else []))%list.
Proof.
  unfold gate_timers, setTimeout. simpl. rewrite filter_app. destruct t; reflexivity.
Qed.

Lemma settle_body_fields s r :
  let s1 := settle_body s r in
  s1.(isRequestInFlight) = s.(isRequestInFlight) /\ s1.(outstanding) = s.(outstanding) /\
  s1.(clock) = s.(clock) /\ s1.(isScanning) = s.(isScanning) /\
  gate_timers s1 = gate_timers s.
Proof.
  destruct r as [m|st tx [m|[n|]]]; simpl.
  - repeat split.
  - destruct (negb (response_ok st)); simpl; repeat split.
  - destruct (negb (response_ok st)); simpl; [repeat split|].
    destruct (String.eqb n ""); [repeat split|].
    unfold on_match, showNotification. repeat split.
    unfold gate_timers. simpl. rewrite !filter_app. simpl. rewrite !app_nil_r. reflexivity.
  - destruct (negb (response_ok st)); simpl; repeat split.
Qed.

Lemma step_gate_inv s e :
  gate_inv s -> no_capture_throw e = true -> gate_inv (step s e).
Proof.
  intros Hinv Hno. destruct e as [|c|r|ms|cid d|cid]; simpl; try exact Hinv.
  - destruct (isScanning s); [|exact Hinv]. unfold captureFrame.
    destruct (isRequestInFlight s) eqn:Hg; [exact Hinv|].
    destruct c as [|m|]; [exact Hinv|discriminate|].
    unfold gate_inv in *. rewrite Hg in Hinv. simpl.
    destruct (outstanding s) as [|k]; [exact Hinv|contradiction].
  - unfold settle. destruct (outstanding s) as [|k] eqn:Ho; [exact Hinv|].
    unfold gate_inv in Hinv. rewrite Ho in Hinv.
    destruct (isRequestInFlight s) eqn:Hg; [|contradiction].
    destruct k; [|contradiction].
    destruct (settle_body_fields (set_outstanding s 0) r) as (H1 & H2 & H3 & _ & H5).
    unfold gate_inv. simpl. rewrite H1, H2. simpl. rewrite Hg.
    rewrite setTimeout_gate_timers, H5. simpl.
    unfold gate_timers in Hinv |- *. simpl. rewrite Hinv. eexists. reflexivity.
  - destruct (elapse_fields s ms) as (_ & _ & H3 & _ & _ & _ & _ & H8).
    unfold gate_inv in *. rewrite H3, H8, elapse_gate_timers.
    destruct (isRequestInFlight s), (outstanding s) as [|[|k]]; try contradiction.
    + destruct Hinv as [d Hd]. rewrite Hd. simpl.
      destruct (Nat.leb d (clock s + ms)); simpl; eauto.
    + rewrite Hinv. reflexivity.
    + rewrite Hinv. reflexivity.
Qed.

Lemma run_gate_inv s es :
  gate_inv s -> forallb no_capture_throw es = true -> gate_inv (run s es).
Proof.
  revert s. induction es as [|e es IH]; intros s Hs Hno; simpl; [exact Hs|].
  apply andb_true_iff in Hno as [He Hes]. apply IH; auto using step_gate_inv.
Qed.

Lemma step_clock_mono s e : (s.(clock) <= (step s e).(clock))%nat.
Proof.
  destruct e as [|c|r|ms|cid d|cid]; simpl; try lia.
  - destruct (isScanning s); [|lia]. unfold captureFrame.
    destruct (isRequestInFlight s); [lia|]. destruct c; simpl; lia.
  - unfold settle. destruct (outstanding s) as [|k]; [lia|].
    destruct (settle_body_fields (set_outstanding s k) r) as (_ & _ & H & _).
    simpl. rewrite H. simpl. lia.
  - destruct (elapse_fields s ms) as (H & _). rewrite H. lia.
Qed.

Lemma run_clock_mono s es : (s.(clock) <= (run s es).(clock))%nat.
Proof.
  revert s. induction es as [|e es IH]; intros s; simpl; [lia|].
  pose proof (step_clock_mono s e). pose proof (IH (step s e)). lia.
Qed.

Lemma tick_gate_noop s c : s.(isRequestInFlight) = true -> step s (Tick c) = s.
Proof.
  intros Hg. simpl. destruct (isScanning s); [|reflexivity].
  unfold captureFrame. rewrite Hg. reflexivity.
Qed.

Lemma held_step D s e :
  held D s -> ((step s e).(clock) < D)%nat -> held D (step s e).
Proof.
  intros (Hg & Ho & Ht) Hlt. destruct e as [|c|r|ms|cid d|cid].
  - exact (conj Hg (conj Ho Ht)).
  - rewrite tick_gate_noop by exact Hg. exact (conj Hg (conj Ho Ht)).
  - simpl. unfold settle. rewrite Ho. exact (conj Hg (conj Ho Ht)).
  - destruct (elapse_fields s ms) as (Hc & _ & H3 & _ & _ & _ & _ & H8).
    simpl in Hlt |- *. rewrite Hc in Hlt.
    unfold held. rewrite H3, H8, elapse_gate_timers, Ht. simpl.
    replace (Nat.leb D (clock s + ms)) with false by (symmetry; apply Nat.leb_gt; lia).
    simpl. rewrite Hg. auto.
  - exact (conj Hg (conj Ho Ht)).
  - exact (conj Hg (conj Ho Ht)).
Qed.

Lemma held_run D s es :
  held D s -> ((run s es).(clock) < D)%nat -> held D (run s es).
Proof.
  revert s. induction es as [|e es IH]; intros s Hs Hlt; simpl in *; [exact Hs|].
  apply IH; [|exact Hlt]. apply held_step; [exact Hs|].
  pose proof (run_clock_mono (step s e) es). lia.
Qed.

(** C3: in every run of the scan loop (captures that do not throw), at
    most one request is outstanding at every point; a tick while the gate
    [isRequestInFlight] is set does nothing (no capture, no request); and
    once the outstanding request settles, whatever its outcome, the gate
    stays set for every later event before 3000 ms have passed and is
    cleared when 3000 ms have passed, a cooldown longer than the 2500 ms
    poll period. *)
Theorem scan_gate (t0 : nat) (es : list Event) :
  forallb no_capture_throw es = true ->
  (outstanding (run (init t0) es) <= 1)%nat /\
  (forall s c, isRequestInFlight s = true -> step s (Tick c) = s) /\
  (outstanding (run (init t0) es) = 1%nat -> forall r,
     let s := run (init t0) es in
     let s1 := step s (Settle r) in
     (forall es', ((run s1 es').(clock) < s.(clock) + COOLDOWN_MS)%nat ->
                  isRequestInFlight (run s1 es') = true) /\
     isRequestInFlight (step s1 (Elapse COOLDOWN_MS)) = false) /\
  (POLL_PERIOD_MS < COOLDOWN_MS)%nat.
Proof.
  intros Hno. pose proof (run_gate_inv (init t0) es eq_refl Hno) as Hinv.
  remember (run (init t0) es) as s eqn:Hs. clear Hs.
  split; [|split; [exact tick_gate_noop|split; [|unfold POLL_PERIOD_MS, COOLDOWN_MS; lia]]].
  - unfold gate_inv in Hinv.
    destruct (isRequestInFlight s), (outstanding s) as [|[|k]]; try contradiction; lia.
  - intros Ho r. cbv zeta.
    unfold gate_inv in Hinv. rewrite Ho in Hinv.
    destruct (isRequestInFlight s) eqn:Hg; [|contradiction].
    assert (Hheld : held (s.(clock) + COOLDOWN_MS) (step s (Settle r))).
    { simpl. unfold settle. rewrite Ho.
      destruct (settle_body_fields (set_outstanding s 0) r) as (H1 & H2 & H3 & _ & H5).
      unfold held. simpl. rewrite H1, H2, setTimeout_gate_timers, H5, H3. simpl.
      rewrite Hg. unfold gate_timers in Hinv |- *. simpl. rewrite Hinv. auto. }
    split.
    + intros es' Hlt. apply (held_run _ _ es' Hheld Hlt).
    + destruct Hheld as (Hg1 & _ & Ht1).
      assert (Hc : (step s (Settle r)).(clock) = s.(clock)).
      { simpl. unfold settle. rewrite Ho.
        destruct (settle_body_fields (set_outstanding s 0) r) as (_ & _ & H3 & _).
        simpl. rewrite H3. reflexivity. }
      remember (step s (Settle r)) as s1 eqn:Hs1.
      change (isRequestInFlight (elapse s1 COOLDOWN_MS) = false).
      destruct (elapse_fields s1 COOLDOWN_MS) as (_ & _ & _ & _ & _ & _ & _ & H8).
      rewrite H8, Ht1, Hc. simpl. rewrite Nat.leb_refl. reflexivity.
Qed.

Lemma scan_gate_witness :
  forallb no_capture_throw [ToggleScanning; Tick Captured] = true /\
  (outstanding (run (init 0) [ToggleScanning; Tick Captured]) <= 1)%nat.
Proof.
  split; [reflexivity|].
  apply (proj1 (scan_gate 0 [ToggleScanning; Tick Captured] eq_refl)).
Defined.

Lemma updateQuantity_spec_witness :
  In (mkCard "Shock" 1 "Shock-5") (run_lib [] [LRecord "Shock" 5]) /\
  (mkCard "Shock" 1 "Shock-5").(id) = "Shock-5" /\
  (forall c', In c' (updateQuantity (run_lib [] [LRecord "Shock" 5]) "Shock-5" (-1)) ->
              0 < c'.(quantity)).
Proof.
  split; [vm_compute; left; reflexivity|split; [reflexivity|]].
  apply (updateQuantity_spec [LRecord "Shock" 5] (mkCard "Shock" 1 "Shock-5") "Shock-5" (-1));
    [vm_compute; left; reflexivity|reflexivity].
Defined.

(** ** Further properties of the library updaters *)

Lemma with_quantity_eta card : with_quantity card card.(quantity) = card.
Proof. destruct card; reflexivity. Qed.

Lemma lib_inv_pos l : lib_inv l -> forall c, In c l -> 0 < c.(quantity).
Proof. intros [_ Hall] c Hc. rewrite Forall_forall in Hall. apply (Hall c Hc). Qed.

Lemma filter_pos_id (l : Library) :
  (forall c, In c l -> 0 < c.(quantity)) -> filter (fun card => Z.ltb 0 card.(quantity)) l = l.
Proof.
  intros H. apply forallb_filter_id, forallb_forall. intros c Hc. apply Z.ltb_lt, H, Hc.
Qed.

Lemma updateQuantity_noop l cid d :
  (forall c, In c l -> 0 < c.(quantity)) ->
  (forall c, In c l -> c.(id) = cid -> Z.max 0 (c.(quantity) + d) = c.(quantity)) ->
  updateQuantity l cid d = l.
Proof.
  intros Hpos Hfix. unfold updateQuantity.
  rewrite map_ext_in with (g := fun c => c).
  - rewrite map_id. apply filter_pos_id; assumption.
  - intros c Hc. destruct (String.eqb (id c) cid) eqn:Heq; [|reflexivity].
    apply String.eqb_eq in Heq. rewrite (Hfix c Hc Heq). apply with_quantity_eta.
Qed.

(** X6: in every library the component can build, pressing "+" and then
    "-" on the same id gives back the same library. *)
Theorem updateQuantity_inc_dec (ops : list LibOp) (cid : string) :
  updateQuantity (updateQuantity (run_lib [] ops) cid 1) cid (-1) = run_lib [] ops.
Proof.
  pose proof (lib_inv_pos _ (run_lib_inv [] ops lib_inv_nil)) as Hpos.
  remember (run_lib [] ops) as l eqn:Hl. clear Hl.
  unfold updateQuantity at 2.
  rewrite filter_pos_id.
  - unfold updateQuantity. rewrite map_map.
    rewrite map_ext_in with (g := fun c => c).
    + rewrite map_id. apply filter_pos_id; assumption.
    + intros c Hc. specialize (Hpos c Hc).
      destruct (String.eqb (id c) cid) eqn:Heq; simpl; rewrite Heq; [|reflexivity].
      replace (Z.max 0 (Z.max 0 (quantity c + 1) + -1)) with (quantity c) by lia.
      destruct c; reflexivity.
  - intros c Hc. apply in_map_iff in Hc as (c0 & <- & Hc0). specialize (Hpos c0 Hc0).
    destruct (String.eqb (id c0) cid); simpl; lia.
Qed.

(** X7: in every library the component can build, [updateQuantity] with
    delta 0, or with an id no row has, changes nothing, and [removeCard]
    with an id no row has changes nothing. *)
Theorem updateQuantity_removeCard_noops (ops : list LibOp) :
  (forall cid, updateQuantity (run_lib [] ops) cid 0 = run_lib [] ops) /\
  (forall cid d, ~ In cid (map id (run_lib [] ops)) ->
     updateQuantity (run_lib [] ops) cid d = run_lib [] ops) /\
  (forall cid, ~ In cid (map id (run_lib [] ops)) ->
     removeCard (run_lib [] ops) cid = run_lib [] ops).
Proof.
  pose proof (lib_inv_pos _ (run_lib_inv [] ops lib_inv_nil)) as Hpos.
  remember (run_lib [] ops) as l eqn:Hl. clear Hl. split; [|split].
  - intros cid. apply updateQuantity_noop; [assumption|].
    intros c Hc _. specialize (Hpos c Hc). lia.
  - intros cid d Hn. apply updateQuantity_noop; [assumption|].
    intros c Hc Hid. exfalso. apply Hn. rewrite <- Hid. apply in_map; assumption.
  - intros cid Hn. apply forallb_filter_id, forallb_forall. intros c Hc.
    apply negb_true_iff, String.eqb_neq. intros Hid. apply Hn.
    rewrite <- Hid. apply in_map; assumption.
Qed.

Lemma filter_id_absent (l : Library) cid :
  ~ In cid (map id l) -> filter (fun card => negb (String.eqb card.(id) cid)) l = l.
Proof.
  intros Hn. apply forallb_filter_id, forallb_forall. intros c Hc.
  apply negb_true_iff, String.eqb_neq. intros Hid. apply Hn.
  rewrite <- Hid. apply in_map; assumption.
Qed.

(** X8: in every library the component can build, removing the id of a
    row present in it removes exactly one row, and no row with that id is
    left. *)
Theorem removeCard_present (ops : list LibOp) (card : Card) :
  In card (run_lib [] ops) ->
  length (removeCard (run_lib [] ops) card.(id)) = pred (length (run_lib [] ops)) /\
  ~ In card.(id) (map id (removeCard (run_lib [] ops) card.(id))).
Proof.
  intros Hin. pose proof (lib_inv_ids_NoDup _ (run_lib_inv [] ops lib_inv_nil)) as Hnd.
  remember (run_lib [] ops) as l eqn:Hl. clear Hl. split.
  - unfold removeCard. induction l as [|a l IH]; [contradiction|].
    inversion Hnd as [|? ? Ha Hl]; subst. simpl.
    destruct (String.eqb (id a) (id card)) eqn:Heq; simpl.
    + apply String.eqb_eq in Heq. rewrite filter_id_absent; [reflexivity|].
      rewrite <- Heq. exact Ha.
    + destruct Hin as [->|Hin]; [rewrite String.eqb_refl in Heq; discriminate|].
      rewrite (IH Hin Hl). destruct l; [contradiction|reflexivity].
  - intros H. apply in_map_iff in H as (c & Hc & H). apply filter_In in H as [_ H].
    rewrite Hc, String.eqb_refl in H. discriminate.
Qed.

Lemma total_quantity_app (l1 l2 : Library) :
  total_quantity (l1 ++ l2)%list = total_quantity l1 + total_quantity l2.
Proof. induction l1 as [|c l1 IH]; simpl; [reflexivity|]. rewrite IH. lia. Qed.

Lemma total_quantity_bump l n :
  total_quantity (map (fun card => if String.eqb card.(name) n
                                   then with_quantity card (card.(quantity) + 1)
                                   else card) l) =
  total_quantity l + Z.of_nat (length (filter (fun card => String.eqb card.(name) n) l)).
Proof.
  induction l as [|c l IH]; simpl; [reflexivity|].
  destruct (String.eqb (name c) n); simpl; rewrite IH; lia.
Qed.

Lemma count_rows_unique l n :
  NoDup (map name l) -> In n (map name l) ->
  length (filter (fun card => String.eqb card.(name) n) l) = 1%nat.
Proof.
  induction l as [|c l IH]; simpl; intros Hnd Hin; [contradiction|].
  inversion Hnd as [|? ? Hc Hl]; subst.
  destruct (String.eqb (name c) n) eqn:Heq.
  - apply String.eqb_eq in Heq. subst n. simpl.
    destruct (filter _ l) as [|x xs] eqn:Hf; [reflexivity|].
    exfalso. assert (Hx : In x (filter (fun card => String.eqb card.(name) (name c)) l))
      by (rewrite Hf; left; reflexivity).
    apply filter_In in Hx as [Hx Hxn]. apply String.eqb_eq in Hxn.
    apply Hc. rewrite <- Hxn. apply in_map; assumption.
  - destruct Hin as [Hn|Hin]; [apply String.eqb_neq in Heq; contradiction|].
    apply IH; assumption.
Qed.

Lemma recordMatch_total_inv l n t :
  lib_inv l -> total_quantity (recordMatch l n t) = total_quantity l + 1.
Proof.
  intros [Hnd _]. unfold recordMatch. destruct (find _ l) as [c0|] eqn:Hf.
  - rewrite total_quantity_bump, count_rows_unique; auto.
    eapply find_name_some; eassumption.
  - rewrite total_quantity_app. simpl. lia.
Qed.

(** X9: in every library the component can build, a match adds exactly
    one card to the total quantity of the library. *)
Theorem recordMatch_total (ops : list LibOp) (n : string) (t : nat) :
  total_quantity (recordMatch (run_lib [] ops) n t) = total_quantity (run_lib [] ops) + 1.
Proof. apply recordMatch_total_inv, run_lib_inv, lib_inv_nil. Qed.

Lemma removeCard_present_witness :
  In (mkCard "Shock" 1 "Shock-5") (run_lib [] [LRecord "Shock" 5]) /\
  length (removeCard (run_lib [] [LRecord "Shock" 5]) "Shock-5") = 0%nat.
Proof.
  split; [vm_compute; left; reflexivity|].
  apply (removeCard_present [LRecord "Shock" 5] (mkCard "Shock" 1 "Shock-5")).
  vm_compute; left; reflexivity.
Defined.

(** ** Further properties of a scan cycle *)

(** X1: when the outstanding request is answered with a 2xx status and a
    non-empty name, whether or not scanning is still on, the match is
    recorded in the library at the current time, one sound is played, the
    frame flashes, the notification reads "<name> added to library", the
    stored error is kept, one request fewer is outstanding, and the gate
    clear is armed 3000 ms ahead. *)
Theorem match_effects (s : Session) (status : nat) (text n : string) :
  s.(outstanding) <> 0%nat -> response_ok status = true -> n <> "" ->
  let s' := step s (Settle (Reply status text (JsonBody (Some n)))) in
  s'.(cardLibrary) = recordMatch s.(cardLibrary) n s.(clock) /\
  s'.(dings) = S s.(dings) /\ s'.(flashFrame) = true /\
  s'.(notification) = Some (n ++ " added to library") /\
  s'.(error) = s.(error) /\ s'.(outstanding) = pred s.(outstanding) /\
  In ((s.(clock) + COOLDOWN_MS)%nat, ClearRequestInFlight) s'.(timers).
Proof.
  intros Hout Hok Hn. destruct (outstanding s) as [|k] eqn:Hk; [contradiction|].
  simpl. rewrite (settle_unfold _ _ _ Hk). simpl. rewrite Hok. simpl.
  apply String.eqb_neq in Hn. rewrite Hn. simpl.
  repeat split. apply in_app_iff. right. left. reflexivity.
Qed.

Lemma match_effects_witness :
  (run (init 0) [ToggleScanning; Tick Captured]).(outstanding) <> 0%nat /\
  response_ok 200 = true /\ "Shock" <> "" /\
  (step (run (init 0) [ToggleScanning; Tick Captured])
     (Settle (Reply 200 "" (JsonBody (Some "Shock"))))).(cardLibrary) =
  recordMatch [] "Shock" 0.
Proof.
  split; [vm_compute; discriminate|split; [reflexivity|split; [discriminate|]]].
  apply (match_effects (run (init 0) [ToggleScanning; Tick Captured]) 200 "" "Shock");
    [vm_compute; discriminate|reflexivity|discriminate].
Defined.

(** X2: a 2xx answer whose name is the empty string (falsy for
    [if (data.name)]) is treated like an absent name: library, sound,
    flash, notification and stored error are unchanged. *)
Theorem empty_name_no_effect (s : Session) (status : nat) (text : string) :
  response_ok status = true ->
  let s' := step s (Settle (Reply status text (JsonBody (Some "")))) in
  s'.(cardLibrary) = s.(cardLibrary) /\ s'.(dings) = s.(dings) /\
  s'.(flashFrame) = s.(flashFrame) /\ s'.(notification) = s.(notification) /\
  s'.(error) = s.(error).
Proof.
  intros Hok. simpl. unfold settle. destruct (outstanding s) as [|k]; [repeat split|].
  simpl. rewrite Hok. simpl. repeat split.
Qed.

Lemma empty_name_no_effect_witness :
  (run (init 0) [ToggleScanning; Tick Captured]).(outstanding) = 1%nat /\
  response_ok 204 = true /\
  (step (run (init 0) [ToggleScanning; Tick Captured])
     (Settle (Reply 204 "" (JsonBody (Some ""))))).(dings) =
    (run (init 0) [ToggleScanning; Tick Captured]).(dings) /\
  (step (run (init 0) [ToggleScanning; Tick Captured])
     (Settle (Reply 204 "" (JsonBody (Some ""))))).(cardLibrary) = [].
Proof.
  destruct (empty_name_no_effect (run (init 0) [ToggleScanning; Tick Captured]) 204 ""
              eq_refl) as (H1 & H2 & _).
  split; [vm_compute; reflexivity|split; [reflexivity|split]].
  - exact H2.
  - rewrite H1. vm_compute. reflexivity.
Defined.

(** X3: when the fetch is rejected, or a 2xx body does not parse, the
    stored error becomes the exception's message, or "An error occurred
    while processing the image" when that message is empty; the library,
    the sound count and the notification are unchanged. *)
Theorem failure_reported (s : Session) (m : string) (r : Response) :
  s.(outstanding) <> 0%nat ->
  (r = FetchRejected m \/ exists status text, response_ok status = true /\
                                               r = Reply status text (MalformedJson m)) ->
  let s' := step s (Settle r) in
  s'.(error) = Some (if String.eqb m "" then DEFAULT_ERROR else m) /\
  s'.(cardLibrary) = s.(cardLibrary) /\ s'.(dings) = s.(dings) /\
  s'.(notification) = s.(notification).
Proof.
  intros Hout Hr. destruct (outstanding s) as [|k] eqn:Hk; [contradiction|].
  simpl. rewrite (settle_unfold _ _ _ Hk).
  destruct Hr as [->|(st & tx & Hok & ->)]; simpl; [repeat split|].
  rewrite Hok. simpl. repeat split.
Qed.

Lemma failure_reported_witness :
  (run (init 0) [ToggleScanning; Tick Captured]).(outstanding) <> 0%nat /\
  (FetchRejected "" = FetchRejected "" \/
   exists status text, response_ok status = true /\
                       FetchRejected "" = Reply status text (MalformedJson "")) /\
  (step (run (init 0) [ToggleScanning; Tick Captured]) (Settle (FetchRejected ""))).(error)
  = Some DEFAULT_ERROR.
Proof.
  split; [vm_compute; discriminate|split; [left; reflexivity|]].
  apply (failure_reported (run (init 0) [ToggleScanning; Tick Captured]) ""
           (FetchRejected "")); [vm_compute; discriminate|left; reflexivity].
Defined.

Lemma step_stopped s e :
  s.(isScanning) = false -> is_toggle e = false ->
  (step s e).(isScanning) = false /\ ((step s e).(outstanding) <= s.(outstanding))%nat.
Proof.
  intros Hs He. destruct e as [|c|r|ms|cid d|cid]; simpl in He |- *; try discriminate.
  - rewrite Hs. auto.
  - unfold settle. destruct (outstanding s) as [|k] eqn:Hk; [rewrite Hk; auto|].
    destruct (settle_body_fields (set_outstanding s k) r) as (_ & H2 & _ & H4 & _).
    simpl. rewrite H2, H4. simpl. split; [exact Hs|lia].
  - destruct (elapse_fields s ms) as (_ & H2 & H3 & _). rewrite H2, H3. auto.
  - auto.
  - auto.
Qed.

(** X4: once scanning is stopped, and until it is started again, no new
    request is started: whatever ticks, settlements, timers and row
    actions happen, scanning stays off and the number of outstanding
    requests never grows. *)
Theorem stopped_no_new_requests (s : Session) (es : list Event) :
  s.(isScanning) = false -> forallb (fun e => negb (is_toggle e)) es = true ->
  (run s es).(isScanning) = false /\ ((run s es).(outstanding) <= s.(outstanding))%nat.
Proof.
  revert s. induction es as [|e es IH]; intros s Hs Hes; simpl; [auto|].
  apply andb_true_iff in Hes as [He Hes]. apply negb_true_iff in He.
  destruct (step_stopped s e Hs He) as [H1 H2].
  destruct (IH (step s e) H1 Hes) as [H3 H4]. split; [exact H3|lia].
Qed.

Lemma stopped_no_new_requests_witness :
  (init 0).(isScanning) = false /\
  forallb (fun e => negb (is_toggle e)) [Tick Captured; Elapse 2500; Tick Captured] = true /\
  ((run (init 0) [Tick Captured; Elapse 2500; Tick Captured]).(outstanding) <= 0)%nat.
Proof.
  split; [reflexivity|split; [reflexivity|]].
  apply (stopped_no_new_requests (init 0) [Tick Captured; Elapse 2500; Tick Captured]);
    reflexivity.
Defined.

Lemma fold_fire_display (L : list (nat * Timer)) (s0 : Session) :
  let s1 := fold_left (fun acc dt => fire acc (snd dt)) L s0 in
  s1.(notification) =
    (if existsb (fun dt => match snd dt with HideNotification => true | _ => false end) L
     then None else s0.(notification)) /\
  s1.(flashFrame) =
    (if existsb (fun dt => match snd dt with EndFlash => true | _ => false end) L
     then false else s0.(flashFrame)).
Proof.
  revert s0. induction L as [|[d t] L IH]; intros s0; [simpl; auto|].
  simpl. destruct (IH (fire s0 t)) as [H1 H2]. rewrite H1, H2.
  destruct t; simpl; split;
    repeat match goal with |- context [existsb ?f L] => destruct (existsb f L) end;
    reflexivity.
Qed.

Lemma existsb_filter_and {A} (p q : A -> bool) (L : list A) :
  existsb q (filter p L) = existsb (fun x => q x && p x) L.
Proof.
  induction L as [|x L IH]; [reflexivity|]. simpl.
  destruct (p x) eqn:Hp, (q x) eqn:Hq; simpl; rewrite ?Hp, ?Hq, ?IH; reflexivity.
Qed.

Lemma elapse_display s ms :
  (elapse s ms).(notification) =
    (if existsb (fun dt => match snd dt with HideNotification => true | _ => false end
                           && Nat.leb (fst dt) (s.(clock) + ms)) s.(timers)
     then None else s.(notification)) /\
  (elapse s ms).(flashFrame) =
    (if existsb (fun dt => match snd dt with EndFlash => true | _ => false end
                           && Nat.leb (fst dt) (s.(clock) + ms)) s.(timers)
     then false else s.(flashFrame)).
Proof.
  unfold elapse. cbv zeta.
  match goal with |- context [fold_left ?f ?L ?s0] =>
    destruct (fold_fire_display L s0) as [H1 H2] end.
  rewrite H1, H2, !existsb_filter_and. simpl. split; reflexivity.
Qed.

Lemma match_timers s status text n k :
  s.(outstanding) = S k -> response_ok status = true -> n <> "" ->
  let s1 := step s (Settle (Reply status text (JsonBody (Some n)))) in
  s1.(clock) = s.(clock) /\
  s1.(timers) = (s.(timers) ++ [((s.(clock) + FLASH_MS)%nat, EndFlash);
                                ((s.(clock) + NOTIFICATION_MS)%nat, HideNotification);
                                ((s.(clock) + COOLDOWN_MS)%nat, ClearRequestInFlight)])%list.
Proof.
  intros Hk Hok Hn. simpl. rewrite (settle_unfold _ _ _ Hk). simpl. rewrite Hok. simpl.
  apply String.eqb_neq in Hn. rewrite Hn. simpl. rewrite <- !app_assoc. split; reflexivity.
Qed.

(** X5: after a cycle that shows a match, the notification is hidden once
    2000 ms have passed and the frame flash ends once 500 ms have passed. *)
Theorem match_display_ends (s : Session) (status : nat) (text n : string) :
  s.(outstanding) <> 0%nat -> response_ok status = true -> n <> "" ->
  (step (step s (Settle (Reply status text (JsonBody (Some n))))) (Elapse NOTIFICATION_MS)).(notification) = None /\
  (step (step s (Settle (Reply status text (JsonBody (Some n))))) (Elapse FLASH_MS)).(flashFrame) = false.
Proof.
  intros Hout Hok Hn. destruct (outstanding s) as [|k] eqn:Hk; [contradiction|].
  destruct (match_timers s status text n k Hk Hok Hn) as [Hc Ht].
  remember (step s (Settle (Reply status text (JsonBody (Some n))))) as s1 eqn:Hs1.
  change (step s1 (Elapse NOTIFICATION_MS)) with (elapse s1 NOTIFICATION_MS).
  change (step s1 (Elapse FLASH_MS)) with (elapse s1 FLASH_MS).
  destruct (elapse_display s1 NOTIFICATION_MS) as [H1 _].
  destruct (elapse_display s1 FLASH_MS) as [_ H2].
  rewrite H1, H2, Ht, Hc, !existsb_app. simpl. rewrite !Nat.leb_refl. simpl.
  rewrite !orb_true_r. split; reflexivity.
Qed.

Lemma match_display_ends_witness :
  (run (init 0) [ToggleScanning; Tick Captured]).(outstanding) <> 0%nat /\
  response_ok 200 = true /\ "Shock" <> "" /\
  (step (step (run (init 0) [ToggleScanning; Tick Captured])
          (Settle (Reply 200 "" (JsonBody (Some "Shock"))))) (Elapse NOTIFICATION_MS)).(notification)
  = None.
Proof.
  split; [vm_compute; discriminate|split; [reflexivity|split; [discriminate|]]].
  apply (match_display_ends (run (init 0) [ToggleScanning; Tick Captured]) 200 "" "Shock");
    [vm_compute; discriminate|reflexivity|discriminate].
Defined.

(** ** Pending timers and the library across a session *)

Lemma setTimeout_bounded s d t :
  timers_bounded s -> (d <= COOLDOWN_MS)%nat -> timers_bounded (setTimeout s d t).
Proof.
  intros Hb Hd. unfold timers_bounded, setTimeout in *. simpl.
  apply Forall_app. split; [exact Hb|]. constructor; [simpl; lia|constructor].
Qed.

Lemma settle_body_bounded s r : timers_bounded s -> timers_bounded (settle_body s r).
Proof.
  intros Hb. destruct r as [m|st tx [m|[n|]]]; simpl; [exact Hb| | |];
    destruct (negb (response_ok st)); simpl; try exact Hb.
  destruct (String.eqb n ""); [exact Hb|].
  unfold on_match, showNotification.
  apply setTimeout_bounded; [|unfold NOTIFICATION_MS, COOLDOWN_MS; lia].
  apply setTimeout_bounded; [exact Hb|unfold FLASH_MS, COOLDOWN_MS; lia].
Qed.

Lemma step_bounded s e : timers_bounded s -> timers_bounded (step s e).
Proof.
  intros Hb. destruct e as [|c|r|ms|cid d|cid]; simpl; try exact Hb.
  - destruct (isScanning s); [|exact Hb]. unfold captureFrame.
    destruct (isRequestInFlight s); [exact Hb|].
    destruct c; [exact Hb| |exact Hb].
    apply setTimeout_bounded; [exact Hb|lia].
  - unfold settle. destruct (outstanding s) as [|k]; [exact Hb|].
    apply setTimeout_bounded; [|lia]. apply settle_body_bounded. exact Hb.
  - destruct (elapse_fields s ms) as (Hc & _ & _ & _ & _ & _ & Ht & _).
    unfold timers_bounded in *. rewrite Hc, Ht.
    apply Forall_forall. intros dt Hdt. apply filter_In in Hdt as [Hdt _].
    rewrite Forall_forall in Hb. specialize (Hb dt Hdt). lia.
Qed.

Lemma run_bounded s es : timers_bounded s -> timers_bounded (run s es).
Proof.
  revert s. induction es as [|e es IH]; intros s Hb; simpl; [exact Hb|].
  apply IH, step_bounded, Hb.
Qed.

(** X10: in every run of the scan loop (captures that do not throw), when
    no request is outstanding the gate is clear once 3000 ms more have
    passed: the scanner never stays blocked after its last answer. *)
Theorem gate_clears_after_cooldown (t0 : nat) (es : list Event) :
  forallb no_capture_throw es = true -> (run (init t0) es).(outstanding) = 0%nat ->
  (step (run (init t0) es) (Elapse COOLDOWN_MS)).(isRequestInFlight) = false.
Proof.
  intros Hno Ho.
  pose proof (run_gate_inv (init t0) es eq_refl Hno) as Hinv.
  pose proof (run_bounded (init t0) es (Forall_nil _)) as Hb.
  remember (run (init t0) es) as s eqn:Hs. clear Hs.
  change (step s (Elapse COOLDOWN_MS)) with (elapse s COOLDOWN_MS).
  destruct (elapse_fields s COOLDOWN_MS) as (_ & _ & _ & _ & _ & _ & _ & H8).
  rewrite H8. unfold gate_inv in Hinv. rewrite Ho in Hinv.
  destruct (isRequestInFlight s).
  - destruct Hinv as [d Hd]. rewrite Hd. simpl.
    assert (Hin : In (d, ClearRequestInFlight) (timers s)).
    { assert (H : In (d, ClearRequestInFlight) (gate_timers s)) by (rewrite Hd; left; reflexivity).
      apply filter_In in H as [H _]. exact H. }
    unfold timers_bounded in Hb. rewrite Forall_forall in Hb.
    specialize (Hb _ Hin). simpl in Hb. apply Nat.leb_le in Hb. rewrite Hb. reflexivity.
  - rewrite Hinv. reflexivity.
Qed.

Lemma gate_clears_after_cooldown_witness :
  forallb no_capture_throw
    [ToggleScanning; Tick Captured; Settle (Reply 200 "" (JsonBody None))] = true /\
  (run (init 0) [ToggleScanning; Tick Captured; Settle (Reply 200 "" (JsonBody None))]).(outstanding) = 0%nat /\
  (step (run (init 0) [ToggleScanning; Tick Captured; Settle (Reply 200 "" (JsonBody None))])
     (Elapse COOLDOWN_MS)).(isRequestInFlight) = false.
Proof.
  split; [reflexivity|split; [vm_compute; reflexivity|]].
  apply (gate_clears_after_cooldown 0
           [ToggleScanning; Tick Captured; Settle (Reply 200 "" (JsonBody None))]);
    [reflexivity|vm_compute; reflexivity].
Defined.

Lemma settle_body_lib s r :
  ((settle_body s r).(cardLibrary) = s.(cardLibrary) /\ (settle_body s r).(dings) = s.(dings)) \/
  exists n, (settle_body s r).(cardLibrary) = recordMatch s.(cardLibrary) n s.(clock) /\
            (settle_body s r).(dings) = S s.(dings).
Proof.
  destruct r as [m|st tx [m|[n|]]]; simpl; [left; auto| | |];
    destruct (negb (response_ok st)); simpl; try (left; auto; fail).
  destruct (String.eqb n ""); [left; auto|]. right. exists n. simpl. auto.
Qed.

Lemma step_lib s e :
  ((step s e).(cardLibrary) = s.(cardLibrary) /\ (step s e).(dings) = s.(dings)) \/
  (exists n t, (step s e).(cardLibrary) = recordMatch s.(cardLibrary) n t /\
               (step s e).(dings) = S s.(dings)) \/
  (is_row_action e = true /\
   ((exists cid d, (step s e).(cardLibrary) = updateQuantity s.(cardLibrary) cid d) \/
    (exists cid, (step s e).(cardLibrary) = removeCard s.(cardLibrary) cid))).
Proof.
  destruct e as [|c|r|ms|cid d|cid]; simpl.
  - left; auto.
  - destruct (isScanning s); [|left; auto]. unfold captureFrame.
    destruct (isRequestInFlight s); [left; auto|]. destruct c; left; simpl; auto.
  - unfold settle. destruct (outstanding s) as [|k]; [left; auto|].
    destruct (settle_body_lib (set_outstanding s k) r) as [[H1 H2]|[n [H1 H2]]].
    + left. simpl. rewrite H1, H2. auto.
    + right; left. exists n, (clock s). simpl. rewrite H1, H2. auto.
  - destruct (elapse_fields s ms) as (_ & _ & _ & _ & H5 & H6 & _).
    left. auto.
  - right; right. split; [reflexivity|]. left. exists cid, d. reflexivity.
  - right; right. split; [reflexivity|]. right. exists cid. reflexivity.
Qed.

Lemma step_lib_inv s e : lib_inv s.(cardLibrary) -> lib_inv (step s e).(cardLibrary).
Proof.
  intros H. destruct (step_lib s e) as [[H1 _]|[[n [t [H1 _]]]|[_ [[cid [d H1]]|[cid H1]]]]];
    rewrite H1.
  - exact H.
  - apply recordMatch_inv, H.
  - apply updateQuantity_inv, H.
  - apply removeCard_inv, H.
Qed.

Lemma run_lib_inv_session s es : lib_inv s.(cardLibrary) -> lib_inv (run s es).(cardLibrary).
Proof.
  revert s. induction es as [|e es IH]; intros s H; simpl; [exact H|].
  apply IH, step_lib_inv, H.
Qed.

(** X11: in every session, whatever the order of scans, answers, timers and
    row edits, the library never holds two rows for one card name nor two
    rows with one id, and every row has a positive quantity. *)
Theorem session_library_wf (t0 : nat) (es : list Event) :
  let l := (run (init t0) es).(cardLibrary) in
  NoDup (map name l) /\ NoDup (map id l) /\ Forall (fun card => 0 < card.(quantity)) l.
Proof.
  intros l. pose proof (run_lib_inv_session (init t0) es lib_inv_nil) as H.
  fold l in H. split; [apply H|split; [apply lib_inv_ids_NoDup, H|]].
  destruct H as [_ Hall]. eapply Forall_impl; [|exact Hall]. intros c [Hc _]. exact Hc.
Qed.

(** X12: as long as no row is edited or removed by hand, the total quantity
    held by the library equals the number of ding sounds played: each
    successful recognition adds exactly one copy and plays exactly one ding. *)
Theorem dings_count_library (t0 : nat) (es : list Event) :
  forallb (fun e => negb (is_row_action e)) es = true ->
  total_quantity (run (init t0) es).(cardLibrary) = Z.of_nat (run (init t0) es).(dings).
Proof.
  assert (Hgen : forall s, lib_inv s.(cardLibrary) ->
            total_quantity s.(cardLibrary) = Z.of_nat s.(dings) ->
            forallb (fun e => negb (is_row_action e)) es = true ->
            total_quantity (run s es).(cardLibrary) = Z.of_nat (run s es).(dings)).
  { induction es as [|e es IH]; intros s Hl Ht Hno; simpl; [exact Ht|].
    simpl in Hno. apply andb_prop in Hno as [He Hno].
    apply IH; [apply step_lib_inv, Hl| |exact Hno].
    destruct (step_lib s e) as [[H1 H2]|[[n [t [H1 H2]]]|[Hr _]]].
    - rewrite H1, H2. exact Ht.
    - rewrite H1, H2, recordMatch_total_inv by exact Hl. rewrite Ht. lia.
    - rewrite Hr in He. discriminate. }
  apply Hgen; [exact lib_inv_nil|reflexivity].
Qed.

Lemma dings_count_library_witness :
  forallb (fun e => negb (is_row_action e))
    [ToggleScanning; Tick Captured; Settle (Reply 200 "" (JsonBody (Some "Shock")));
     Elapse 3000; Tick Captured; Settle (Reply 200 "" (JsonBody (Some "Shock")))] = true /\
  total_quantity (run (init 0)
    [ToggleScanning; Tick Captured; Settle (Reply 200 "" (JsonBody (Some "Shock")));
     Elapse 3000; Tick Captured; Settle (Reply 200 "" (JsonBody (Some "Shock")))]).(cardLibrary) = 2.
Proof.
  split; [reflexivity|].
  rewrite (dings_count_library 0
    [ToggleScanning; Tick Captured; Settle (Reply 200 "" (JsonBody (Some "Shock")));
     Elapse 3000; Tick Captured; Settle (Reply 200 "" (JsonBody (Some "Shock")))]);
    [vm_compute; reflexivity|reflexivity].
Defined.

Lemma split_first_absent sep d rest :
  has_char sep d = false -> split_first sep (d ++ String sep rest) = d.
Proof.
  induction d as [|c d IH]; simpl; intros H.
  - rewrite Ascii.eqb_refl. reflexivity.
  - apply orb_false_iff in H as [Hc H]. rewrite Ascii.eqb_sym, Hc, IH by exact H.
    reflexivity.
Qed.

(** X13: the export file is named after the date part of the ISO timestamp,
    that is everything before its first "T". *)
Theorem export_filename_date (d rest : string) :
  has_char "T" d = false ->
  export_filename (d ++ String "T" rest) = "mtg-library-" ++ d ++ ".csv".
Proof.
  intros H. unfold export_filename. rewrite split_first_absent by exact H. reflexivity.
Qed.

Lemma export_filename_date_witness :
  has_char "T" "2026-10-14" = false /\
  export_filename ("2026-10-14" ++ String "T" "09:30:00.000Z") = "mtg-library-2026-10-14.csv".
Proof.
  split; [reflexivity|].
  rewrite (export_filename_date "2026-10-14" "09:30:00.000Z"); reflexivity.
Defined.

Lemma updateQuantity_removeCard_noops_witness :
  ~ In "Bolt-0" (map id (run_lib [] [LRecord "Shock" 5])) /\
  updateQuantity (run_lib [] [LRecord "Shock" 5]) "Bolt-0" (-1) = run_lib [] [LRecord "Shock" 5] /\
  removeCard (run_lib [] [LRecord "Shock" 5]) "Bolt-0" = run_lib [] [LRecord "Shock" 5].
Proof.
  assert (Hn : ~ In "Bolt-0" (map id (run_lib [] [LRecord "Shock" 5]))).
  { vm_compute. intros [H|H]; [discriminate H|exact H]. }
  split; [exact Hn|split].
  - apply (proj1 (proj2 (updateQuantity_removeCard_noops [LRecord "Shock" 5]))). exact Hn.
  - apply (proj2 (proj2 (updateQuantity_removeCard_noops [LRecord "Shock" 5]))). exact Hn.
Defined.
